(** * example.c (chapter 2): a shallow embedding and its behavioural contract

    The program under study is the sixteen-line C file
    [src/code/ch2/example.c]:

<<
    const char message[] = "Hello from ELF!";
    int initialized_var = 42;
    int uninitialized_var;

    void print_message() { printf("%s\n", message); }

    int main() {
        uninitialized_var = initialized_var;
        print_message();
        return 0;
    }
>>

    The two functions are written below as terms of a small monad of
    statements ([prog]); an interpreter ([exec]) runs such a term on a
    [world] (static storage plus the two standard streams) and records
    the event performed by every statement together with the world it
    leaves behind.  All properties are stated on that recorded history. *)

From Stdlib Require Import ZArith List String Ascii Bool Lia.
From ExtLib Require Import Structures.Monad.
Import ListNotations.
Import MonadNotation.

Local Open Scope string_scope.
Local Open Scope Z_scope.
Local Open Scope monad_scope.

(** ** Characters and C strings *)

Definition NUL : ascii := "000"%char.
Definition LF : ascii := "010"%char.

(** The characters of a [char] array up to, and without, the first NUL:
    what [%s] and [strlen] see. *)
Fixpoint c_str (a : string) : string :=
  match a with
  | EmptyString => EmptyString
  | String c rest => if Ascii.eqb c NUL then EmptyString else String c (c_str rest)
  end.

(** A string literal used as an array initialiser: the characters followed
    by the terminating NUL ([sizeof] is the length plus one). *)
Definition literal (s : string) : string := s ++ String NUL EmptyString.

(** ** Static storage *)

(** The objects with static storage duration declared by the file. *)
Inductive int_object : Type := initialized_var | uninitialized_var.
Inductive char_object : Type := message.

Definition int_object_eqb (x y : int_object) : bool :=
  match x, y with
  | initialized_var, initialized_var => true
  | uninitialized_var, uninitialized_var => true
  | _, _ => false
  end.

(** One field per object, named after the section the object is placed in. *)
Record memory : Type := Memory {
  rodata_message : string;          (* const char message[16] *)
  data_initialized_var : Z;         (* int initialized_var *)
  bss_uninitialized_var : Z         (* int uninitialized_var *)
}.

Definition load_int (m : memory) (x : int_object) : Z :=
  match x with
  | initialized_var => data_initialized_var m
  | uninitialized_var => bss_uninitialized_var m
  end.

Definition store_int (m : memory) (x : int_object) (v : Z) : memory :=
  match x with
  | initialized_var =>
      Memory (rodata_message m) v (bss_uninitialized_var m)
  | uninitialized_var =>
      Memory (rodata_message m) (data_initialized_var m) v
  end.

Definition load_chars (m : memory) (a : char_object) : string :=
  match a with
  | message => rodata_message m
  end.

(** Initial value of an [int] with static storage duration: its initialiser
    when the declaration has one, zero otherwise. *)
Definition static_init (initialiser : option Z) : Z :=
  match initialiser with
  | Some v => v
  | None => 0
  end.

(** Lines 4-6 of the file. *)
Definition image : memory :=
  {| rodata_message := literal "Hello from ELF!";
     data_initialized_var := static_init (Some 42);
     bss_uninitialized_var := static_init None |}.

(** ** Streams and the world *)

Record stream : Type := Stream {
  available : bool;      (* the stream accepts output *)
  delivered : string;    (* the bytes the process has written to it *)
  error : bool           (* the stream's error indicator *)
}.

Record world : Type := World {
  mem : memory;
  stdout : stream;
  stderr : stream
}.

Definition set_mem (w : world) (m : memory) : world :=
  World m (stdout w) (stderr w).

Definition set_stdout (w : world) (s : stream) : world :=
  World (mem w) s (stderr w).

(** Writing [text] to a stream: on a stream that accepts output the bytes are
    appended and their number is the result; otherwise nothing is written,
    the error indicator is set and the result is negative.  The failure is
    reported by the call that meets it, as on an unbuffered stream; a
    library that buffers may report success and lose the bytes when it
    flushes at exit.  In both cases nothing is delivered. *)
Definition fwrite (s : stream) (text : string) : Z * stream :=
  if available s
  then (Z.of_nat (String.length text),
        Stream true (delivered s ++ text) (error s))
  else (-1, Stream false (delivered s) true).

(** ** The fragment of [printf] the program uses *)

Inductive printf_arg : Type :=
| ArgStr (a : char_object).     (* a char array, passed as pointer to its first element *)

(** Expansion of a format: ordinary characters are copied, [%s] takes the
    next argument and copies its C string, [%%] is a percent sign.  [None]
    stands for a call whose behaviour is undefined (a directive without its
    argument, or one outside the fragment). *)
Fixpoint format (m : memory) (fmt : string) (args : list printf_arg)
  : option string :=
  match fmt with
  | EmptyString => Some EmptyString
  | String c rest =>
      if Ascii.eqb c "%"%char then
        match rest with
        | String d rest' =>
            if Ascii.eqb d "s"%char then
              match args with
              | ArgStr a :: args' =>
                  option_map (fun t => c_str (load_chars m a) ++ t)
                             (format m rest' args')
              | [] => None
              end
            else if Ascii.eqb d "%"%char then
              option_map (String "%"%char) (format m rest' args)
            else None
        | EmptyString => None
        end
      else option_map (String c) (format m rest args)
  end.

(** ** Statements *)

Inductive func : Type := Fmain | Fprint_message.

(** A program is a tree of statements; the continuation of a [printf] call
    receives the value the call returns. *)
Inductive prog (A : Type) : Type :=
| Ret (a : A)
| Assign (dst src : int_object) (k : prog A)                  (* dst = src; *)
| Printf (fmt : string) (args : list printf_arg) (k : Z -> prog A)
| Enter (f : func) (k : prog A)                               (* f is called *)
| Leave (f : func) (v : option Z) (k : prog A).               (* f returns [v] *)

Arguments Ret {A} a.
Arguments Assign {A} dst src k.
Arguments Printf {A} fmt args k.
Arguments Enter {A} f k.
Arguments Leave {A} f v k.

Fixpoint bind_prog {A B : Type} (p : prog A) (q : A -> prog B) : prog B :=
  match p with
  | Ret a => q a
  | Assign dst src k => Assign dst src (bind_prog k q)
  | Printf fmt args k => Printf fmt args (fun r => bind_prog (k r) q)
  | Enter f k => Enter f (bind_prog k q)
  | Leave f v k => Leave f v (bind_prog k q)
  end.

#[global] Instance Monad_prog : Monad prog :=
  {| ret := @Ret; bind := @bind_prog |}.

Definition assign (dst src : int_object) : prog unit :=
  Assign dst src (Ret tt).

Definition printf (fmt : string) (args : list printf_arg) : prog Z :=
  Printf fmt args (fun r => Ret r).

(** A call runs the body of the callee between the two markers; a function
    returning [int] leaves with the value of its [return] statement, a [void]
    function leaves with none. *)
Definition call_int (f : func) (body : prog Z) : prog Z :=
  Enter f (x <- body ;; Leave f (Some x) (Ret x)).

Definition call_void (f : func) (body : prog unit) : prog unit :=
  Enter f (body ;; Leave f None (Ret tt)).

(** ** The program *)

(** Lines 8-10.  The value of [printf] is not used. *)
Definition print_message : prog unit :=
  _ <- printf (String "%" (String "s" (String LF EmptyString))) [ArgStr message] ;;
  ret tt.

(** Lines 12-16. *)
Definition main : prog Z :=
  assign uninitialized_var initialized_var ;;
  call_void Fprint_message print_message ;;
  ret 0.

(** ** Execution *)

Inductive event : Type :=
| EvAssign (dst src : int_object) (v : Z)     (* [v] was copied from src to dst *)
| EvPrintf (text : string) (result : Z)       (* printf expanded to [text], returned [result] *)
| EvEnter (f : func)                          (* control entered f *)
| EvLeave (f : func) (v : option Z).          (* f returned [v] to its caller *)

(** A history lists, in order, each event with the world after it. *)
Definition history : Type := list (event * world).

Definition observe {A : Type} (x : event * world) (r : history * option A)
  : history * option A :=
  (x :: fst r, snd r).

(** [exec p w] runs [p] from [w].  The second component is the value [p]
    returns, or [None] when execution reached undefined behaviour. *)
Fixpoint exec {A : Type} (p : prog A) (w : world) : history * option A :=
  match p with
  | Ret a => ([], Some a)
  | Assign dst src k =>
      let v := load_int (mem w) src in
      let w' := set_mem w (store_int (mem w) dst v) in
      observe (EvAssign dst src v, w') (exec k w')
  | Printf fmt args k =>
      match format (mem w) fmt args with
      | None => ([], None)
      | Some text =>
          let r := fst (fwrite (stdout w) text) in
          let w' := set_stdout w (snd (fwrite (stdout w) text)) in
          observe (EvPrintf text r, w') (exec (k r) w')
      end
  | Enter f k => observe (EvEnter f, w) (exec k w)
  | Leave f v k => observe (EvLeave f v, w) (exec k w)
  end.

Definition events (h : history) : list event := map fst h.

(** The world at the end of a history that started in [w]. *)
Fixpoint final (w : world) (h : history) : world :=
  match h with
  | [] => w
  | (_, w') :: h' => final w' h'
  end.

(** ** Running the process *)

(** What the caller of the program supplies: the command-line arguments
    (after the program name) and a standard output stream that does or does
    not accept output. *)
Record invocation : Type := Invocation {
  args : list string;
  stdout_available : bool
}.

(** Program start: static storage holds the image, nothing has been written.
    [main] is declared without parameters, so the arguments go nowhere. *)
Definition start (inv : invocation) : world :=
  {| mem := image;
     stdout := Stream (stdout_available inv) EmptyString false;
     stderr := Stream true EmptyString false |}.

Record outcome : Type := Outcome {
  trace : history;
  stdout_bytes : string;
  stderr_bytes : string;
  exit_code : option Z       (* the value returned by main *)
}.

Definition run_program (inv : invocation) : outcome :=
  let r := exec (call_int Fmain main) (start inv) in
  let w := final (start inv) (fst r) in
  {| trace := fst r;
     stdout_bytes := delivered (stdout w);
     stderr_bytes := delivered (stderr w);
     exit_code := snd r |}.

(** ** Reading a history *)

Definition func_eqb (f g : func) : bool :=
  match f, g with
  | Fmain, Fmain => true
  | Fprint_message, Fprint_message => true
  | _, _ => false
  end.

Definition running (f : func) (stack : list func) : bool :=
  match stack with
  | g :: _ => func_eqb f g
  | [] => false
  end.

(** The events a function performs itself: its statements, the calls it
    makes and its own return; what its callees do is left out.  [stack] is
    the chain of active calls, innermost first. *)
Fixpoint actions_of (f : func) (stack : list func) (es : list event)
  : list event :=
  match es with
  | [] => []
  | EvEnter g :: es' =>
      (if running f stack then [EvEnter g] else [])
        ++ actions_of f (g :: stack) es'
  | EvLeave g v :: es' =>
      (if running f stack then [EvLeave g v] else [])
        ++ actions_of f (tl stack) es'
  | e :: es' =>
      (if running f stack then [e] else []) ++ actions_of f stack es'
  end.

(** The event stores into [x]. *)
Definition writes_to (x : int_object) (e : event) : bool :=
  match e with
  | EvAssign dst _ _ => int_object_eqb dst x
  | _ => false
  end.

(** The event writes to a stream. *)
Definition is_output (e : event) : bool :=
  match e with
  | EvPrintf _ _ => true
  | _ => false
  end.

(** The event is a library call that reported an error. *)
Definition failed (e : event) : bool :=
  match e with
  | EvPrintf _ r => r <? 0
  | _ => false
  end.

(** The worlds from the first store into [x] onwards: the one that store
    leaves behind and every later one. *)
Fixpoint since_write (x : int_object) (h : history) : list world :=
  match h with
  | [] => []
  | (e, w) :: h' =>
      if writes_to x e then w :: map snd h' else since_write x h'
  end.

(** The worlds before the first store into [x], starting with [w], the world
    the history starts from. *)
Fixpoint until_write (x : int_object) (w : world) (h : history) : list world :=
  match h with
  | [] => [w]
  | (e, w') :: h' =>
      if writes_to x e then [w] else w :: until_write x w' h'
  end.

(** Every event with the world before and the world after it. *)
Fixpoint steps (w : world) (h : history) : list (world * event * world) :=
  match h with
  | [] => []
  | (e, w') :: h' => (w, e, w') :: steps w' h'
  end.

(** The line the program is meant to print. *)
Definition hello_line : string := "Hello from ELF!" ++ String LF EmptyString.

(** ** Repeated calls *)

(** [n] consecutive calls of a [void] function, as in
    [f(); f(); ... f();]. *)
Fixpoint call_times (n : nat) (f : func) (body : prog unit) : prog unit :=
  match n with
  | O => Ret tt
  | S n' => call_void f body ;; call_times n' f body
  end.

(** [n] copies of a text, one after the other. *)
Fixpoint copies (n : nat) (s : string) : string :=
  match n with
  | O => EmptyString
  | S n' => s ++ copies n' s
  end.

(** What [printf("%s\n", message)] expands to in memory [m]. *)
Definition line_of (m : memory) : string :=
  c_str (load_chars m message) ++ String LF EmptyString.

(** The character [c] occurs in [s]. *)
Fixpoint occurs (c : ascii) (s : string) : bool :=
  match s with
  | EmptyString => false
  | String d rest => Ascii.eqb c d || occurs c rest
  end.

(** * Properties *)

(** ** Tactics *)

(** Both kinds of invocation at once: the arguments stay symbolic, the state
    of standard output is split into its two cases. *)
Ltac both_streams inv :=
  let a := fresh "a" in
  let so := fresh "so" in
  destruct inv as [a so]; destruct so.

Ltac run := cbv; repeat (first [reflexivity | discriminate | constructor]).

(** ** Frame lemmas for [exec], valid for every program *)

Section Frame.

Context {T : Type} (part : world -> T).

(** [part] is a component of the world that neither a store into an [int]
    object nor a write to standard output touches. *)
Hypothesis part_store :
  forall w x v, part (set_mem w (store_int (mem w) x v)) = part w.
Hypothesis part_stdout :
  forall w s, part (set_stdout w s) = part w.

Lemma exec_frame {A : Type} (p : prog A) :
  forall w, Forall (fun x => part (snd x) = part w) (fst (exec p w)).
Proof.
  induction p as [a | dst src k IH | fmt fargs k IH | f k IH | f v k IH];
    intros w; simpl.
  - constructor.
  - constructor; simpl.
    + apply part_store.
    + eapply Forall_impl; [| apply IH].
      intros x Hx; simpl in Hx. rewrite Hx. apply part_store.
  - destruct (format (mem w) fmt fargs) as [text |]; simpl.
    + constructor; simpl.
      * apply part_stdout.
      * eapply Forall_impl; [| apply IH].
        intros x Hx; simpl in Hx. rewrite Hx. apply part_stdout.
    + constructor.
  - constructor; simpl; [reflexivity | apply IH].
  - constructor; simpl; [reflexivity | apply IH].
Qed.

Lemma exec_frame_final {A : Type} (p : prog A) (w : world) :
  part (final w (fst (exec p w))) = part w.
Proof.
  pose proof (exec_frame p w) as H.
  revert H. generalize (fst (exec p w)) as h. intros h; revert w.
  induction h as [| [e w'] h IH]; intros w H; simpl; [reflexivity |].
  inversion H as [| x l Hx Hl]; subst; simpl in Hx.
  rewrite <- Hx. apply IH.
  eapply Forall_impl; [| exact Hl].
  intros y Hy; simpl in Hy. congruence.
Qed.

End Frame.

(** No statement of the language stores into a [char] object. *)
Lemma rodata_frame {A : Type} (p : prog A) (w : world) :
  Forall (fun x => load_chars (mem (snd x)) message = load_chars (mem w) message)
         (fst (exec p w)).
Proof.
  apply (exec_frame (fun w => load_chars (mem w) message)).
  - intros w0 [] v; reflexivity.
  - reflexivity.
Qed.

(** No statement of the language writes to standard error. *)
Lemma stderr_frame {A : Type} (p : prog A) (w : world) :
  stderr (final w (fst (exec p w))) = stderr w.
Proof.
  apply (exec_frame_final stderr).
  - reflexivity.
  - reflexivity.
Qed.

(** Sequencing: the history of [p] followed by the history of what comes
    next, run from the world [p] ends in. *)
Lemma exec_bind {A B : Type} (p : prog A) (q : A -> prog B) :
  forall w,
    exec (bind_prog p q) w =
    match snd (exec p w) with
    | Some a =>
        let r := exec (q a) (final w (fst (exec p w))) in
        ((fst (exec p w) ++ fst r)%list, snd r)
    | None => (fst (exec p w), None)
    end.
Proof.
  induction p as [a | dst src k IH | fmt fargs k IH | f k IH | f v k IH];
    intros w; simpl.
  - destruct (exec (q a) w); reflexivity.
  - rewrite IH. destruct (snd (exec k _)); reflexivity.
  - destruct (format (mem w) fmt fargs) as [text |]; simpl; [| reflexivity].
    rewrite IH. destruct (snd (exec (k _) _)); reflexivity.
  - rewrite IH. destruct (snd (exec k _)); reflexivity.
  - rewrite IH. destruct (snd (exec k _)); reflexivity.
Qed.

(** ** Facts about the two functions *)

(** [printf("%s\n", message)] always expands: to the C string held in
    [message] followed by a line feed. *)
Lemma format_line (m : memory) :
  format m (String "%" (String "s" (String LF EmptyString))) [ArgStr message]
  = Some (c_str (rodata_message m) ++ String LF EmptyString).
Proof. reflexivity. Qed.

Lemma c_str_literal : c_str (literal "Hello from ELF!") = "Hello from ELF!".
Proof. reflexivity. Qed.

Example message_has_sixteen_chars :
  String.length (rodata_message image) = 16%nat.
Proof. reflexivity. Qed.

Example c_str_stops_at_nul :
  c_str (String "a" (String NUL (String "b" EmptyString))) = "a".
Proof. reflexivity. Qed.

Example format_without_argument :
  format image (String "%" (String "s" EmptyString)) [] = None.
Proof. reflexivity. Qed.

Example run_stdout_available :
  events (trace (run_program (Invocation [] true))) =
  [ EvEnter Fmain;
    EvAssign uninitialized_var initialized_var 42;
    EvEnter Fprint_message;
    EvPrintf hello_line 16;
    EvLeave Fprint_message None;
    EvLeave Fmain (Some 0) ].
Proof. reflexivity. Qed.

Example run_stdout_closed :
  events (trace (run_program (Invocation ["-v"; "x"] false))) =
  [ EvEnter Fmain;
    EvAssign uninitialized_var initialized_var 42;
    EvEnter Fprint_message;
    EvPrintf hello_line (-1);
    EvLeave Fprint_message None;
    EvLeave Fmain (Some 0) ].
Proof. reflexivity. Qed.

(** The history of the whole program is that of [print_message], run after
    the assignment, between the markers of the two calls. *)
Lemma run_program_trace (inv : invocation) :
  let w1 := set_mem (start inv)
                    (store_int (mem (start inv)) uninitialized_var
                               (load_int (mem (start inv)) initialized_var)) in
  let h := fst (exec print_message w1) in
  trace (run_program inv) =
  ((EvEnter Fmain, start inv)
     :: (EvAssign uninitialized_var initialized_var
                  (load_int (mem (start inv)) initialized_var), w1)
     :: (EvEnter Fprint_message, w1)
     :: h ++ [ (EvLeave Fprint_message None, final w1 h);
               (EvLeave Fmain (Some 0), final w1 h) ])%list.
Proof. reflexivity. Qed.

(** The history of [print_message], from any world. *)
Lemma exec_print_message (w : world) :
  exec print_message w =
  let text := c_str (rodata_message (mem w)) ++ String LF EmptyString in
  ([(EvPrintf text (fst (fwrite (stdout w) text)),
     set_stdout w (snd (fwrite (stdout w) text)))],
   Some tt).
Proof. reflexivity. Qed.

(** ** The claims *)

(** C1, as amended.  On every invocation with no arguments standard error
    receives nothing and the exit code is 0; when standard output accepts the
    write, the bytes it receives are exactly [Hello from ELF!] followed by one
    line feed. *)
Theorem run_without_arguments (inv : invocation) (Hargs : args inv = []) :
  (stdout_available inv = true -> stdout_bytes (run_program inv) = hello_line) /\
  stderr_bytes (run_program inv) = EmptyString /\
  exit_code (run_program inv) = Some 0.
Proof.
  both_streams inv; simpl in Hargs; subst; run.
Qed.

Lemma run_without_arguments_witness :
  args (Invocation [] true) = [] /\
  stdout_available (Invocation [] true) = true /\
  stdout_bytes (run_program (Invocation [] true)) = hello_line /\
  stderr_bytes (run_program (Invocation [] true)) = EmptyString /\
  exit_code (run_program (Invocation [] true)) = Some 0.
Proof.
  destruct (run_without_arguments (Invocation [] true) eq_refl) as [Hout [Herr Hexit]].
  split; [reflexivity |].
  split; [reflexivity |].
  split; [apply Hout; reflexivity |].
  split; assumption.
Defined.

(** C1, as stated, fails: invoked with no arguments and a standard output
    that does not accept output, the program delivers no byte at all. *)
Lemma run_without_arguments_closed_stdout :
  args (Invocation [] false) = [] /\
  stdout_bytes (run_program (Invocation [] false)) = EmptyString /\
  stdout_bytes (run_program (Invocation [] false)) <> hello_line.
Proof.
  split; [reflexivity |]. split; [reflexivity |]. cbv. discriminate.
Qed.

(** C2.  On every invocation [main] performs exactly three actions, in this
    order: it copies the value of [initialized_var] into [uninitialized_var],
    it calls [print_message], it returns 0.  The first action does store:
    in the world it leaves behind [uninitialized_var] holds the value
    [initialized_var] had (42), and nothing else has changed.  The second
    does run the routine: what happens between the call and its return is
    the history of [print_message] from that world, a single [printf] of
    the line.  The third hands 0 to the caller.  The history of a run holds
    these steps and no other. *)
Theorem main_three_actions (inv : invocation) :
  actions_of Fmain [] (events (trace (run_program inv))) =
  [ EvAssign uninitialized_var initialized_var
             (load_int (mem (start inv)) initialized_var);
    EvEnter Fprint_message;
    EvLeave Fmain (Some 0) ] /\
  exists w1 : world,
    (load_int (mem w1) uninitialized_var
     = load_int (mem (start inv)) initialized_var /\
     load_int (mem w1) uninitialized_var = 42 /\
     load_int (mem w1) initialized_var
     = load_int (mem (start inv)) initialized_var /\
     load_chars (mem w1) message = load_chars (mem (start inv)) message /\
     stdout w1 = stdout (start inv) /\
     stderr w1 = stderr (start inv)) /\
    (exists r, events (fst (exec print_message w1)) = [EvPrintf hello_line r]) /\
    trace (run_program inv) =
    ((EvEnter Fmain, start inv)
       :: (EvAssign uninitialized_var initialized_var
                    (load_int (mem (start inv)) initialized_var), w1)
       :: (EvEnter Fprint_message, w1)
       :: fst (exec print_message w1)
       ++ [ (EvLeave Fprint_message None, final w1 (fst (exec print_message w1)));
            (EvLeave Fmain (Some 0), final w1 (fst (exec print_message w1))) ])%list /\
    exit_code (run_program inv) = Some 0.
Proof.
  split; [both_streams inv; reflexivity |].
  exists (final (start inv) (fst (exec (assign uninitialized_var initialized_var)
                                       (start inv)))).
  split; [repeat split; reflexivity |].
  split; [eexists; reflexivity |].
  split; reflexivity.
Qed.

(** C3.  [initialized_var] is 42 at program start; the assignment is
    executed, and in the world it leaves behind and in every later one
    [uninitialized_var] equals [initialized_var], which is still 42. *)
Theorem equal_after_assignment (inv : invocation) :
  load_int (mem (start inv)) initialized_var = 42 /\
  existsb (writes_to uninitialized_var) (events (trace (run_program inv))) = true /\
  Forall (fun w =>
            load_int (mem w) uninitialized_var = load_int (mem w) initialized_var /\
            load_int (mem w) initialized_var = 42)
         (since_write uninitialized_var (trace (run_program inv))).
Proof.
  both_streams inv; (split; [reflexivity |]); (split; [reflexivity |]); run.
Qed.

(** C4, as amended.  Invoked in any world whose [message] holds its
    initialiser, [print_message] performs one operation, a [printf] of
    [Hello from ELF!] and a line feed: on a standard output that accepts
    output exactly these bytes are appended to it, on one that does not
    nothing is written; memory and standard error are left as they were.  In
    a run of the whole program this is the only output operation, and no
    other step changes a stream. *)
Theorem print_message_effect (w : world) (inv : invocation)
    (Hmsg : load_chars (mem w) message = literal "Hello from ELF!") :
  let h := fst (exec print_message w) in
  (snd (exec print_message w) = Some tt /\
   events h = [EvPrintf hello_line (fst (fwrite (stdout w) hello_line))] /\
   (available (stdout w) = true ->
    delivered (stdout (final w h)) = delivered (stdout w) ++ hello_line) /\
   (available (stdout w) = false ->
    delivered (stdout (final w h)) = delivered (stdout w)) /\
   mem (final w h) = mem w /\
   stderr (final w h) = stderr w) /\
  ((exists r, filter is_output (events (trace (run_program inv)))
               = [EvPrintf hello_line r]) /\
   Forall (fun s : world * event * world =>
             let '(before, e, after) := s in
             is_output e = true \/
             (stdout after = stdout before /\ stderr after = stderr before))
          (steps (start inv) (trace (run_program inv))) /\
   Forall (fun x => stderr (snd x) = stderr (start inv))
          (trace (run_program inv))).
Proof.
  intros h. subst h. split.
  - rewrite exec_print_message. simpl in Hmsg. cbn zeta. rewrite Hmsg.
    rewrite c_str_literal. fold hello_line. simpl fst; simpl snd.
    split; [reflexivity |]. split; [reflexivity |].
    simpl final. unfold set_stdout, fwrite; simpl.
    split; [intros Hopen; rewrite Hopen; reflexivity |].
    split; [intros Hclosed; rewrite Hclosed; reflexivity |].
    split; reflexivity.
  - split; [both_streams inv; eexists; reflexivity |].
    split.
    + both_streams inv; cbv;
        repeat (constructor; try (right; split; reflexivity); try (left; reflexivity)).
    + apply (exec_frame stderr); reflexivity.
Qed.

Lemma print_message_effect_witness :
  load_chars (mem (start (Invocation [] true))) message = literal "Hello from ELF!" /\
  available (stdout (start (Invocation [] true))) = true /\
  delivered (stdout (final (start (Invocation [] true))
                           (fst (exec print_message (start (Invocation [] true))))))
  = hello_line.
Proof.
  split; [reflexivity |]. split; [reflexivity |].
  destruct (print_message_effect (start (Invocation [] true)) (Invocation [] true) eq_refl)
    as [[_ [_ [Hopen _]]] _].
  exact (Hopen eq_refl).
Defined.

(** C4, as stated, fails: invoked on a standard output that does not accept
    output, [print_message] writes nothing to it. *)
Lemma print_message_closed_stdout :
  delivered (stdout (final (start (Invocation [] false))
                           (fst (exec print_message (start (Invocation [] false))))))
  = delivered (stdout (start (Invocation [] false))) /\
  delivered (stdout (final (start (Invocation [] false))
                           (fst (exec print_message (start (Invocation [] false))))))
  <> delivered (stdout (start (Invocation [] false))) ++ hello_line.
Proof.
  split; [reflexivity | cbv; discriminate].
Qed.

(** C5.  [message] is built as the text [Hello from ELF!] (with its
    terminating NUL), and after every event of every run it holds what it
    held at program start. *)
Theorem message_read_only (inv : invocation) :
  load_chars (mem (start inv)) message = literal "Hello from ELF!" /\
  c_str (load_chars (mem (start inv)) message) = "Hello from ELF!" /\
  Forall (fun x => load_chars (mem (snd x)) message
                   = load_chars (mem (start inv)) message)
         (trace (run_program inv)).
Proof.
  split; [reflexivity |]. split; [reflexivity |].
  apply rodata_frame.
Qed.

(** C6.  In every run exactly one step stores into [uninitialized_var]: the
    assignment, which stores the value [initialized_var] holds at that
    moment; every other step leaves [uninitialized_var] as it was. *)
Theorem uninitialized_var_written_once (inv : invocation) :
  exists before after,
    filter (fun s : world * event * world =>
              writes_to uninitialized_var (snd (fst s)))
           (steps (start inv) (trace (run_program inv)))
    = [ (before,
         EvAssign uninitialized_var initialized_var
                  (load_int (mem before) initialized_var),
         after) ] /\
    load_int (mem after) uninitialized_var = load_int (mem before) initialized_var /\
    Forall (fun s : world * event * world =>
              let '(w, e, w') := s in
              writes_to uninitialized_var e = true \/
              load_int (mem w') uninitialized_var = load_int (mem w) uninitialized_var)
           (steps (start inv) (trace (run_program inv))).
Proof.
  exists (start inv).
  exists (set_mem (start inv) (store_int (mem (start inv)) uninitialized_var 42)).
  both_streams inv;
    (split; [reflexivity |]); (split; [reflexivity |]);
    cbv; repeat (constructor; try (left; reflexivity); try (right; reflexivity)).
Qed.

(** C7.  The arguments are never looked at: two invocations that differ only
    in their argument lists go through the same history, deliver the same
    bytes to standard output and exit with the same code; and the exit code
    is the same for any two invocations whatever. *)
Theorem arguments_have_no_effect
    (args1 args2 : list string) (so : bool) (inv1 inv2 : invocation) :
  stdout_bytes (run_program (Invocation args1 so))
  = stdout_bytes (run_program (Invocation args2 so)) /\
  exit_code (run_program (Invocation args1 so))
  = exit_code (run_program (Invocation args2 so)) /\
  trace (run_program (Invocation args1 so))
  = trace (run_program (Invocation args2 so)) /\
  exit_code (run_program inv1) = exit_code (run_program inv2).
Proof.
  repeat split; reflexivity.
Qed.

(** C8.  When standard output accepts output, the run reaches the end of
    [main] (it returns 0, no call is undefined), no event of the run reports
    a failure, and no stream has its error indicator set at any point; the
    same holds for [print_message] invoked on its own in any world whose
    standard output accepts output. *)
Theorem no_failure_path (inv : invocation) (w : world)
    (Hinv : stdout_available inv = true)
    (Hw : available (stdout w) = true) :
  (exit_code (run_program inv) = Some 0 /\
   existsb failed (events (trace (run_program inv))) = false /\
   Forall (fun x => error (stdout (snd x)) = false /\
                    error (stderr (snd x)) = false)
          (trace (run_program inv))) /\
  (snd (exec print_message w) = Some tt /\
   existsb failed (events (fst (exec print_message w))) = false /\
   error (stdout (final w (fst (exec print_message w)))) = error (stdout w)).
Proof.
  split.
  - destruct inv as [a so]; simpl in Hinv; subst so.
    split; [reflexivity |]. split; [reflexivity |]. run.
  - rewrite exec_print_message. cbn zeta. simpl fst; simpl snd.
    unfold fwrite. rewrite Hw. simpl.
    split; [reflexivity |]. split; [| reflexivity].
    rewrite orb_false_r. apply Z.ltb_ge. apply Nat2Z.is_nonneg.
Qed.

Lemma no_failure_path_witness :
  stdout_available (Invocation [] true) = true /\
  available (stdout (start (Invocation [] true))) = true /\
  exit_code (run_program (Invocation [] true)) = Some 0 /\
  existsb failed (events (trace (run_program (Invocation [] true)))) = false.
Proof.
  split; [reflexivity |]. split; [reflexivity |].
  destruct (no_failure_path (Invocation [] true) (start (Invocation [] true))
                            eq_refl eq_refl) as [[Hexit [Hfail _]] _].
  split; assumption.
Defined.

(** C9.  [uninitialized_var] has no initialiser and static storage, so it is
    0 at program start, and it is 0 in every world of a run that precedes
    the assignment. *)
Theorem uninitialized_var_starts_at_zero (inv : invocation) :
  load_int (mem (start inv)) uninitialized_var = 0 /\
  Forall (fun w => load_int (mem w) uninitialized_var = 0)
         (until_write uninitialized_var (start inv) (trace (run_program inv))) /\
  existsb (writes_to uninitialized_var) (events (trace (run_program inv))) = true.
Proof.
  split; [reflexivity |].
  both_streams inv; (split; [run | reflexivity]).
Qed.

(** C10.  The exit code is 0 on every invocation, and [main] returns 0 from
    any world at all: the value of [printf] reaches no statement.  In
    particular, on an invocation whose standard output does not accept
    output the [printf] call reports a failure (a negative result), nothing
    is delivered, and [main] still returns 0. *)
Theorem exit_code_always_zero (inv : invocation) (w : world) :
  exit_code (run_program inv) = Some 0 /\
  snd (exec (call_int Fmain main) w) = Some 0 /\
  stdout_bytes (run_program (Invocation (args inv) false)) = EmptyString /\
  filter is_output (events (trace (run_program (Invocation (args inv) false))))
  = [EvPrintf hello_line (-1)] /\
  existsb failed (events (trace (run_program (Invocation (args inv) false)))) = true /\
  exit_code (run_program (Invocation (args inv) false)) = Some 0.
Proof.
  repeat split; reflexivity.
Qed.

(** * Further properties of the two functions *)

Lemma append_assoc (a b c : string) : (a ++ b) ++ c = a ++ (b ++ c).
Proof.
  induction a as [| x a IH]; simpl; [reflexivity | rewrite IH; reflexivity].
Qed.

Lemma append_empty_r (a : string) : a ++ EmptyString = a.
Proof.
  induction a as [| x a IH]; simpl; [reflexivity | rewrite IH; reflexivity].
Qed.

(** The history of [main], from any world. *)
Lemma exec_main (w : world) :
  let w1 := set_mem w (store_int (mem w) uninitialized_var
                                 (load_int (mem w) initialized_var)) in
  let w2 := set_stdout w1 (snd (fwrite (stdout w) (line_of (mem w)))) in
  exec main w =
  ([ (EvAssign uninitialized_var initialized_var
               (load_int (mem w) initialized_var), w1);
     (EvEnter Fprint_message, w1);
     (EvPrintf (line_of (mem w)) (fst (fwrite (stdout w) (line_of (mem w)))), w2);
     (EvLeave Fprint_message None, w2) ],
   Some 0).
Proof. reflexivity. Qed.

(** X1.  Whatever the variables hold when [main] starts, [main] returns 0
    and leaves [uninitialized_var] equal to the value [initialized_var] had
    at the start; [initialized_var] and [message] are the same after every
    event of [main] as before it. *)
Theorem main_copies_any_value (w : world) :
  let h := fst (exec main w) in
  snd (exec main w) = Some 0 /\
  load_int (mem (final w h)) uninitialized_var = load_int (mem w) initialized_var /\
  Forall (fun x => load_int (mem (snd x)) initialized_var
                   = load_int (mem w) initialized_var /\
                   load_chars (mem (snd x)) message = load_chars (mem w) message)
         h.
Proof.
  rewrite exec_main. cbn zeta. simpl fst; simpl snd.
  split; [reflexivity |]. split; [reflexivity |].
  repeat constructor.
Qed.

(** X2.  Running [main] a second time changes no variable: the memory after
    two runs in a row is the memory after one. *)
Theorem main_twice_same_memory (w : world) :
  let once := final w (fst (exec main w)) in
  let twice := final w (fst (exec (main ;; main) w)) in
  snd (exec (main ;; main) w) = Some 0 /\
  mem twice = mem once.
Proof.
  cbn zeta.
  change (main ;; main) with (bind_prog main (fun _ => main)).
  rewrite exec_bind.
  assert (Hret : snd (exec main w) = Some 0) by reflexivity.
  rewrite Hret. cbn zeta. simpl snd.
  split; [reflexivity |].
  destruct w as [[msg iv uv] so se]. reflexivity.
Qed.

(** One call of [print_message], from any world. *)
Lemma exec_call_print_message (w : world) :
  let w' := set_stdout w (snd (fwrite (stdout w) (line_of (mem w)))) in
  exec (call_void Fprint_message print_message) w =
  ([ (EvEnter Fprint_message, w);
     (EvPrintf (line_of (mem w)) (fst (fwrite (stdout w) (line_of (mem w)))), w');
     (EvLeave Fprint_message None, w') ],
   Some tt).
Proof. reflexivity. Qed.

(** X3.  Calls of [print_message] add up: [n] calls in a row on a standard
    output that accepts output append exactly [n] copies of the line to
    what was delivered before, and leave memory, standard error and the
    state of standard output as they were. *)
Theorem print_message_n_times (n : nat) :
  forall w : world,
    available (stdout w) = true ->
    let r := exec (call_times n Fprint_message print_message) w in
    snd r = Some tt /\
    delivered (stdout (final w (fst r)))
    = delivered (stdout w) ++ copies n (line_of (mem w)) /\
    available (stdout (final w (fst r))) = true /\
    error (stdout (final w (fst r))) = error (stdout w) /\
    mem (final w (fst r)) = mem w /\
    stderr (final w (fst r)) = stderr w.
Proof.
  induction n as [| n IH]; intros w Hopen; cbn zeta.
  - simpl. rewrite append_empty_r. repeat split; try reflexivity. exact Hopen.
  - change (call_times (S n) Fprint_message print_message)
      with (bind_prog (call_void Fprint_message print_message)
                      (fun _ => call_times n Fprint_message print_message)).
    rewrite exec_bind, exec_call_print_message.
    cbn zeta. simpl fst; simpl snd. cbn iota. cbn zeta.
    simpl final.
    set (w' := set_stdout w (snd (fwrite (stdout w) (line_of (mem w))))).
    assert (Hw' : stdout w' = Stream true (delivered (stdout w) ++ line_of (mem w))
                                     (error (stdout w))).
    { unfold w', fwrite. rewrite Hopen. reflexivity. }
    assert (Hopen' : available (stdout w') = true) by (rewrite Hw'; reflexivity).
    destruct (IH w' Hopen') as (Hret & Hout & Hav & Herr & Hmem & Hse).
    cbn zeta in *.
    destruct (exec (call_times n Fprint_message print_message) w') as [h r] eqn:E.
    simpl fst in *; simpl snd in *.
    split; [exact Hret |].
    split; [rewrite Hout, Hw'; simpl; apply append_assoc |].
    split; [exact Hav |].
    split; [rewrite Herr, Hw'; reflexivity |].
    split; [rewrite Hmem; reflexivity |].
    rewrite Hse; reflexivity.
Qed.

Lemma print_message_n_times_witness :
  available (stdout (start (Invocation [] true))) = true /\
  delivered (stdout (final (start (Invocation [] true))
     (fst (exec (call_times 3 Fprint_message print_message)
                (start (Invocation [] true))))))
  = copies 3 hello_line.
Proof.
  split; [reflexivity |].
  destruct (print_message_n_times 3 (start (Invocation [] true)) eq_refl)
    as [_ [Hout _]].
  exact Hout.
Defined.

(** X4.  From any world, [main] keeps what standard output had already
    received and adds to it the C string held in [message] and one line
    feed when the stream accepts output, nothing when it does not.  Whether
    the stream accepts output is not changed, and standard error is not
    touched. *)
Theorem main_appends_one_line (w : world) :
  let w' := final w (fst (exec main w)) in
  delivered (stdout w')
  = delivered (stdout w)
    ++ (if available (stdout w) then line_of (mem w) else EmptyString) /\
  available (stdout w') = available (stdout w) /\
  stderr w' = stderr w.
Proof.
  rewrite exec_main. cbn zeta. simpl fst. simpl final.
  unfold set_stdout, set_mem, fwrite; simpl.
  destruct (available (stdout w)) eqn:E; simpl.
  - repeat split; reflexivity.
  - rewrite append_empty_r. repeat split; reflexivity.
Qed.

(** X5.  The two [int] variables never reach the output: two worlds that
    agree on [message] and on standard output give, after [main], the same
    standard output and the same sequence of output operations, whatever
    [initialized_var] and [uninitialized_var] hold in each. *)
Theorem output_independent_of_variables (w1 w2 : world)
    (Hmsg : load_chars (mem w1) message = load_chars (mem w2) message)
    (Hout : stdout w1 = stdout w2) :
  stdout (final w1 (fst (exec main w1))) = stdout (final w2 (fst (exec main w2))) /\
  filter is_output (events (fst (exec main w1)))
  = filter is_output (events (fst (exec main w2))) /\
  snd (exec main w1) = snd (exec main w2).
Proof.
  rewrite !exec_main. cbn zeta. simpl fst; simpl snd. simpl final.
  unfold line_of, load_chars in *. simpl. rewrite Hmsg, Hout.
  repeat split; reflexivity.
Qed.

Lemma output_independent_of_variables_witness :
  stdout (final (World (Memory (literal "Hi") 1 2) (Stream true EmptyString false)
                       (Stream true EmptyString false))
                (fst (exec main (World (Memory (literal "Hi") 1 2)
                                       (Stream true EmptyString false)
                                       (Stream true EmptyString false)))))
  = stdout (final (World (Memory (literal "Hi") 7 (-3)) (Stream true EmptyString false)
                         (Stream true EmptyString false))
                  (fst (exec main (World (Memory (literal "Hi") 7 (-3))
                                         (Stream true EmptyString false)
                                         (Stream true EmptyString false))))).
Proof.
  destruct (output_independent_of_variables
              (World (Memory (literal "Hi") 1 2) (Stream true EmptyString false)
                     (Stream true EmptyString false))
              (World (Memory (literal "Hi") 7 (-3)) (Stream true EmptyString false)
                     (Stream true EmptyString false))
              eq_refl eq_refl) as [H _].
  exact H.
Defined.

Lemma occurs_append (c : ascii) (a b : string) :
  occurs c (a ++ b) = occurs c a || occurs c b.
Proof.
  induction a as [| x a IH]; simpl; [reflexivity |].
  rewrite IH. apply orb_assoc.
Qed.

(** A C string holds no NUL, whatever the array it is read from. *)
Lemma c_str_no_nul (a : string) : occurs NUL (c_str a) = false.
Proof.
  induction a as [| x a IH]; cbn [c_str]; [reflexivity |].
  destruct (Ascii.eqb x NUL) eqn:E; cbn [occurs]; [reflexivity |].
  rewrite IH, orb_false_r.
  rewrite Ascii.eqb_sym. exact E.
Qed.

Lemma length_append (a b : string) :
  String.length (a ++ b) = (String.length a + String.length b)%nat.
Proof.
  induction a as [| x a IH]; simpl; [reflexivity | rewrite IH; reflexivity].
Qed.

(** The characters before the first NUL of an array that holds one are
    fewer than the array has elements: reading them stays inside it. *)
Lemma c_str_inside (a : string) :
  occurs NUL a = true ->
  (String.length (c_str a) < String.length a)%nat.
Proof.
  induction a as [| x a IH]; cbn [occurs c_str String.length]; [discriminate |].
  rewrite (Ascii.eqb_sym NUL x).
  destruct (Ascii.eqb x NUL); cbn [orb String.length]; intros H.
  - apply Nat.lt_0_succ.
  - apply -> Nat.succ_lt_mono. apply IH. exact H.
Qed.

(** X6.  Whenever [message] holds a NUL, as its initialiser makes it, the
    only output operation of [main] is one [printf] whose text is the
    characters of [message] before its first NUL followed by a line feed:
    the terminating NUL is never written, and the characters read are fewer
    than the array has elements.  On a standard output that accepts output
    the call returns the number of characters of that C string plus one. *)
Theorem terminator_never_written (w : world)
    (Hnul : occurs NUL (load_chars (mem w) message) = true) :
  (exists r,
      filter is_output (events (fst (exec main w)))
      = [EvPrintf (line_of (mem w)) r] /\
      (available (stdout w) = true ->
       r = Z.of_nat (String.length (c_str (load_chars (mem w) message))) + 1)) /\
  occurs NUL (line_of (mem w)) = false /\
  (String.length (c_str (load_chars (mem w) message))
   < String.length (load_chars (mem w) message))%nat.
Proof.
  rewrite exec_main. cbn zeta. simpl fst. split; [| split].
  - eexists. split; [reflexivity |].
    intros Hopen. simpl. unfold fwrite. rewrite Hopen. simpl.
    unfold line_of. rewrite length_append. simpl String.length.
    rewrite Nat2Z.inj_add. reflexivity.
  - unfold line_of. rewrite occurs_append, c_str_no_nul. reflexivity.
  - apply c_str_inside. exact Hnul.
Qed.

Lemma terminator_never_written_witness :
  occurs NUL (load_chars (mem (start (Invocation [] true))) message) = true /\
  available (stdout (start (Invocation [] true))) = true /\
  filter is_output (events (fst (exec main (start (Invocation [] true)))))
  = [EvPrintf hello_line 16] /\
  occurs NUL (line_of (mem (start (Invocation [] true)))) = false.
Proof.
  split; [reflexivity |]. split; [reflexivity |].
  destruct (terminator_never_written (start (Invocation [] true)) eq_refl)
    as [[r [Hev Hres]] [Hno _]].
  split; [| exact Hno].
  rewrite Hev, (Hres eq_refl). reflexivity.
Defined.
